(** * nb-from: a note from a template note

    A verification development for [src/index.ts], the Deno command line
    script that fetches a template note with [nb show], renders it with Eta,
    rewrites its first heading and either prints the text (dry run) or stores
    it with [nb add].

    The file is organised as follows.
    - [JsString]: JavaScript strings as sequences of UTF-16 code units.
    - [RegExp]: the fragment of the regular-expression semantics used by the
      literal [/^\#.*$/m] and [String.prototype.replace].
    - [Lines]: a declarative description of "the first line that begins
      with [#]", against which the matcher is verified.
    - [Cli]: the option table and the parsed arguments.
    - [Script]: the command handler, as a program in a small monad that
      records the calls made to the host (subprocesses, console, exit).
    - [EtaSpec]: the renderer as section 4.2 of the specification describes it.
    - the properties of the specification. *)

From Stdlib Require Import String Ascii ZArith NArith Strings.Byte.
From stdpp Require Import gmap list.

Local Open Scope N_scope.

(* ===================================================================== *)
(** ** JavaScript strings *)
(* ===================================================================== *)

Module JsString.

(** A JavaScript string is a sequence of 16-bit code units. The regular
    expression of the script has no [u] flag, so it works on code units. *)
Abbreviation code_unit := N (only parsing).
Abbreviation jsstring := (list N) (only parsing).

(** An ASCII literal as a JavaScript string. *)
Definition lit (s : string) : jsstring :=
  List.map N_of_ascii (list_ascii_of_string s).

(** ECMAScript [LineTerminator]: LF, CR, LS (U+2028), PS (U+2029). *)
Definition is_line_terminator (c : code_unit) : bool :=
  (c =? 10) || (c =? 13) || (c =? 8232) || (c =? 8233).

Definition hash : code_unit := 35.     (* # *)
Definition dollar : code_unit := 36.   (* $ *)
Definition amp : code_unit := 38.      (* & *)
Definition quote : code_unit := 39.    (* ' *)
Definition backtick : code_unit := 96. (* ` *)

End JsString.
Export JsString.

(* ===================================================================== *)
(** ** Regular expressions: the fragment used by [/^\#.*$/m] *)
(* ===================================================================== *)

Module RegExp.

(** A character matcher: a literal code unit, or [.] (anything but a line
    terminator, as the literal has no [s] flag). *)
Inductive cls : Type :=
| CChar (c : code_unit)
| CDot.

(** The terms of a pattern: the assertions [^] and [$] (in multi-line
    mode, as the literal has the [m] flag), one character, or a greedy
    star over one character. *)
Inductive term : Type :=
| TBol
| TEol
| TAtom (a : cls)
| TStar (a : cls).

Definition cls_matches (a : cls) (c : code_unit) : bool :=
  match a with
  | CChar d => c =? d
  | CDot => negb (is_line_terminator c)
  end.

(** [^] with [m]: at the start of the input, or just after a line
    terminator. [prev] is the code unit before the current position. *)
Definition at_line_start (prev : option code_unit) : bool :=
  match prev with
  | None => true
  | Some c => is_line_terminator c
  end.

(** [$] with [m]: at the end of the input, or just before a line
    terminator. *)
Definition at_line_end (s : jsstring) : bool :=
  match s with
  | [] => true
  | c :: _ => is_line_terminator c
  end.

(** The greedy star: take one more character when possible and try the
    rest of the pattern [k] there first; fall back to stopping here. The
    result is the number of code units consumed. *)
Fixpoint star_loop (a : cls) (k : option code_unit -> jsstring -> option nat)
         (prev : option code_unit) (s : jsstring) : option nat :=
  match s with
  | c :: s' =>
      if cls_matches a c then
        match star_loop a k (Some c) s' with
        | Some n => Some (S n)
        | None => k prev s
        end
      else k prev s
  | [] => k prev s
  end.

(** Backtracking match of a sequence of terms at the current position. *)
Fixpoint match_terms (re : list term) (prev : option code_unit) (s : jsstring)
  : option nat :=
  match re with
  | [] => Some O
  | TBol :: re' => if at_line_start prev then match_terms re' prev s else None
  | TEol :: re' => if at_line_end s then match_terms re' prev s else None
  | TAtom a :: re' =>
      match s with
      | c :: s' =>
          if cls_matches a c then
            match match_terms re' (Some c) s' with
            | Some n => Some (S n)
            | None => None
            end
          else None
      | [] => None
      end
  | TStar a :: re' => star_loop a (match_terms re') prev s
  end.

(** [RegExpBuiltinExec] for a pattern that is neither global nor sticky:
    try every start position from the left; the result is the index and
    the length of the first match. *)
Fixpoint exec_from (re : list term) (prev : option code_unit) (s : jsstring)
         (i : nat) : option (nat * nat) :=
  match match_terms re prev s with
  | Some n => Some (i, n)
  | None =>
      match s with
      | [] => None
      | c :: s' => exec_from re (Some c) s' (S i)
      end
  end.

Definition exec (re : list term) (s : jsstring) : option (nat * nat) :=
  exec_from re None s O.

(** [GetSubstitution] for a pattern without capture groups: [$$] is a
    dollar, [$&] the matched text, [$`] the text before the match, [$']
    the text after it; any other [$] stands for itself. *)
Fixpoint get_substitution (matched before after : jsstring)
         (replacement : jsstring) : jsstring :=
  match replacement with
  | [] => []
  | c :: rest =>
      if c =? dollar then
        match rest with
        | d :: rest' =>
            if d =? dollar then
              dollar :: get_substitution matched before after rest'
            else if d =? amp then
              matched ++ get_substitution matched before after rest'
            else if d =? backtick then
              before ++ get_substitution matched before after rest'
            else if d =? quote then
              after ++ get_substitution matched before after rest'
            else dollar :: get_substitution matched before after rest
        | [] => [dollar]
        end
      else c :: get_substitution matched before after rest
  end.

(** [String.prototype.replace] with a non-global pattern and a string as
    replacement: only the first match is replaced. *)
Definition replace (re : list term) (replacement : jsstring) (s : jsstring)
  : jsstring :=
  match exec re s with
  | None => s
  | Some (i, n) =>
      let before := take i s in
      let matched := take n (drop i s) in
      let after := drop (i + n) s in
      before ++ get_substitution matched before after replacement ++ after
  end.

(** The literal of the script: [/^\#.*$/m]. *)
Definition heading_re : list term :=
  [TBol; TAtom (CChar hash); TStar CDot; TEol].

End RegExp.

Import RegExp.

(* ===================================================================== *)
(** ** Lines and heading lines, declaratively *)
(* ===================================================================== *)

Module Lines.

(** The text [pre] ends where a line starts: it is empty or its last code
    unit is a line terminator. *)
Definition ends_at_line_start (pre : jsstring) : Prop :=
  pre = [] \/ exists p c, pre = p ++ [c] /\ is_line_terminator c = true.

(** The text [post] starts where a line ends: it is empty or its first
    code unit is a line terminator. *)
Definition starts_at_line_end (post : jsstring) : Prop :=
  post = [] \/ exists c p, post = c :: p /\ is_line_terminator c = true.

Definition no_terminator (l : jsstring) : Prop :=
  Forall (fun c => is_line_terminator c = false) l.

(** [heading_line s pre line post]: the text [s] is [pre], then the whole
    line [line], which begins with [#], then [post]. *)
Record heading_line (s pre line post : jsstring) : Prop := {
  hl_split : s = pre ++ line ++ post;
  hl_start : ends_at_line_start pre;
  hl_hash : exists l, line = hash :: l;
  hl_body : no_terminator line;
  hl_end : starts_at_line_end post
}.

(** The first such line of [s]: no other one starts earlier. *)
Definition first_heading_line (s pre line post : jsstring) : Prop :=
  heading_line s pre line post /\
  forall pre' line' post',
    heading_line s pre' line' post' -> (length pre <= length pre')%nat.

(** No line of [s] begins with [#]. *)
Definition no_heading_line (s : jsstring) : Prop :=
  forall pre line post, ~ heading_line s pre line post.

(** The length of the rest of the current line. *)
Fixpoint line_len (s : jsstring) : nat :=
  match s with
  | [] => O
  | c :: s' => if is_line_terminator c then O else S (line_len s')
  end.

End Lines.

Import Lines.

(* ===================================================================== *)
(** ** The command line *)
(* ===================================================================== *)

Module Cli.

(** The JavaScript values the script handles. *)
Inductive js_value : Type :=
| JString (s : jsstring)
| JBool (b : bool)
| JBytes (bs : list byte)   (* a Uint8Array *)
| JMomentFn                 (* the function imported from [npm:moment] *)
| JMoment (t : Z).          (* the object [moment()] returns at instant [t] *)

Definition is_string (v : js_value) : bool :=
  match v with
  | JString _ => true
  | _ => false
  end.

(** What the user typed: the two positionals, the four declared options
    when given, and the other [--name value] options. *)
Record CommandLine : Type := {
  cl_template : jsstring;
  cl_note : jsstring;
  cl_date : option jsstring;
  cl_title : option jsstring;
  cl_removeTitle : option bool;
  cl_dry_run : option bool;
  cl_vars : gmap jsstring jsstring
}.

(** [argv] as the handler reads it. [ParsedArgs] declares [template],
    [note] and [date] as strings and the rest as [Record<string, string>];
    [date] is a value here because its default is not a string (see
    [parse_args]). [vars] holds the remaining keys. yargs adds keys of its
    own ([_], [$0], aliases of the option names); the handler does not read
    them and they are left out. *)
Record ParsedArgs : Type := {
  template : jsstring;
  note : jsstring;
  date : js_value;
  title : option jsstring;
  removeTitle : bool;
  dry_run : bool;
  vars : gmap jsstring jsstring
}.

(** The option table of the builder: [date] has [default: moment()],
    evaluated when the options are declared, at instant [today]; [title]
    has no default; [removeTitle] has [default: true] and [dry-run] has
    [default: false]. yargs stores a default as it is given. *)
Definition parse_args (today : Z) (c : CommandLine) : ParsedArgs :=
  {| template := cl_template c;
     note := cl_note c;
     date := match cl_date c with
             | Some d => JString d
             | None => JMoment today
             end;
     title := cl_title c;
     removeTitle := default true (cl_removeTitle c);
     dry_run := default false (cl_dry_run c);
     vars := cl_vars c |}.

(** [argv] as an object, for the spread [{...argv, moment}]: the declared
    keys over the remaining ones; [title] is a key only when given. *)
Definition argv_object (a : ParsedArgs) : gmap jsstring js_value :=
  let o := JString <$> vars a in
  let o := <[lit "dry-run" := JBool (dry_run a)]> o in
  let o := <[lit "removeTitle" := JBool (removeTitle a)]> o in
  let o := match title a with
           | Some t => <[lit "title" := JString t]> o
           | None => delete (lit "title") o
           end in
  let o := <[lit "date" := date a]> o in
  let o := <[lit "note" := JString (note a)]> o in
  <[lit "template" := JString (template a)]> o.


End Cli.
Export Cli.

(* ===================================================================== *)
(** ** The script *)
(* ===================================================================== *)

Module Script.

(** [Deno.CommandOutput]: the exit status and the two captured streams,
    both byte arrays. *)
Record CommandOutput : Type := {
  code : Z;
  stdout : list byte;
  stderr : list byte
}.

(** What the script asks of its host: running a program with arguments
    and waiting for its output, Eta's [renderString] (which returns the
    text or throws), and the UTF-8 codecs [TextDecoder.decode] and
    [TextEncoder.encode]. *)
Record Host : Type := {
  command_output : jsstring -> list jsstring -> CommandOutput;
  eta_renderString : jsstring -> gmap jsstring js_value -> jsstring + jsstring;
  text_decode : list byte -> jsstring;
  text_encode : jsstring -> list byte
}.

(** The calls the script makes, in order. [ConsoleError] and [ConsoleLog]
    carry the value that is passed, not the text the console makes of it. *)
Inductive event : Type :=
| Command (program : jsstring) (args : list jsstring)
| EtaRender (tmpl : jsstring) (scope : gmap jsstring js_value)
| ConsoleError (v : js_value)
| ConsoleLog (v : js_value)
| StdoutWrite (bs : list byte).

(** A computation goes on with a value, ends the process with
    [Deno.exit], or throws. *)
Inductive result (A : Type) : Type :=
| Value (a : A)
| Exit (status : Z)
| Throw (e : jsstring).
Arguments Value {A} a.
Arguments Exit {A} status.
Arguments Throw {A} e.

Definition M (A : Type) : Type := list event -> result A * list event.

#[global] Instance M_ret : MRet M := fun A a tr => (Value a, tr).

#[global] Instance M_bind : MBind M := fun A B f m tr =>
  match m tr with
  | (Value a, tr') => f a tr'
  | (Exit c, tr') => (Exit c, tr')
  | (Throw e, tr') => (Throw e, tr')
  end.

Definition emit (e : event) : M unit := fun tr => (Value tt, tr ++ [e]).
Definition Deno_exit {A : Type} (status : Z) : M A := fun tr => (Exit status, tr).
Definition throw {A : Type} (e : jsstring) : M A := fun tr => (Throw e, tr).

Definition console_error (v : js_value) : M unit := emit (ConsoleError v).
Definition console_log (v : js_value) : M unit := emit (ConsoleLog v).
Definition stdout_write (bs : list byte) : M unit := emit (StdoutWrite bs).

(** [new Deno.Command(program, {args}).output()], awaited. *)
Definition output (h : Host) (program : jsstring) (args : list jsstring)
  : M CommandOutput :=
  emit (Command program args);; mret (command_output h program args).

Definition show_args (template : jsstring) : list jsstring :=
  [lit "show"; lit "--no-color"; lit "--print"; template].

Definition getTemplate (h : Host) (template : jsstring) : M CommandOutput :=
  output h (lit "nb") (show_args template).

Definition renderTemplate (h : Host) (template : jsstring)
           (vars : gmap jsstring js_value) : M jsstring :=
  emit (EtaRender template vars);;
  match eta_renderString h template vars with
  | inr s => mret s
  | inl e => throw e
  end.

Definition add_args (filename content : jsstring) : list jsstring :=
  [lit "add"; lit "--filename"; filename; lit "--content"; content].

Definition createNote (h : Host) (filename content : jsstring)
  : M CommandOutput :=
  output h (lit "nb") (add_args filename content).

(** [if (argv.title)]: a missing title and the empty string are falsy. *)
Definition truthy (v : option jsstring) : bool :=
  match v with
  | Some (_ :: _) => true
  | _ => false
  end.

(** [${argv.title}] *)
Definition to_string (v : option jsstring) : jsstring :=
  default (lit "undefined") v.

(** The two [replace] calls of the handler. *)
Definition rewrite_heading (title : option jsstring) (removeTitle : bool)
           (rendered : jsstring) : jsstring :=
  if truthy title then
    replace heading_re (lit "# " ++ to_string title) rendered
  else if removeTitle then
    replace heading_re [] rendered
  else rendered.

(** The variables given to the renderer: [{...argv, moment}]. *)
Definition render_scope (argv : ParsedArgs) : gmap jsstring js_value :=
  <[lit "moment" := JMomentFn]> (argv_object argv).

(** The command handler. *)
Definition handler (h : Host) (argv : ParsedArgs) : M unit :=
  tmpl ← getTemplate h (template argv);
  (if negb (code tmpl =? 0)%Z then
     console_error (JBytes (stderr tmpl));; Deno_exit 1
   else mret tt);;
  rendered ← renderTemplate h (text_decode h (stdout tmpl)) (render_scope argv);
  let rendered := rewrite_heading (title argv) (removeTitle argv) rendered in
  (if dry_run argv then
     stdout_write (text_encode h rendered);; Deno_exit 0
   else mret tt);;
  created ← createNote h (note argv) rendered;
  (if negb (code created =? 0)%Z then
     console_error (JBytes (stderr created));; Deno_exit 1
   else mret tt);;
  console_log (JString (lit "Note created.")).

(** One run of the handler: how it ends and the calls it made. *)
Definition run (h : Host) (argv : ParsedArgs) : result unit * list event :=
  handler h argv [].

(** The exit status of the process: the argument of [Deno.exit], 0 when
    the handler returns, 1 when it throws (an uncaught error ends a Deno
    process with status 1). *)
Definition exit_code (r : result unit) : Z :=
  match r with
  | Value _ => 0
  | Exit status => status
  | Throw _ => 1
  end.

(** The event is a run of [nb add]. *)
Definition is_add (e : event) : bool :=
  match e with
  | Command _ (a :: _) => bool_decide (a = lit "add")
  | _ => false
  end.

End Script.
Export Script.

(* ===================================================================== *)
(** ** What the host answers in a run *)
(* ===================================================================== *)

Module Outcome.

(** The answer of [nb show] to the handler. *)
Definition fetched (h : Host) (argv : ParsedArgs) : CommandOutput :=
  command_output h (lit "nb") (show_args (template argv)).

(** The answer of the renderer for the fetched text. *)
Definition rendering (h : Host) (argv : ParsedArgs) : jsstring + jsstring :=
  eta_renderString h (text_decode h (stdout (fetched h argv)))
                   (render_scope argv).

(** The answer of [nb add] for a given content. *)
Definition created (h : Host) (argv : ParsedArgs) (content : jsstring)
  : CommandOutput :=
  command_output h (lit "nb") (add_args (note argv) content).

Definition fetch_failed (h : Host) (argv : ParsedArgs) : Prop :=
  code (fetched h argv) <> 0%Z.

Definition render_failed (h : Host) (argv : ParsedArgs) : Prop :=
  code (fetched h argv) = 0%Z /\ exists e, rendering h argv = inl e.

(** The template was fetched and rendered, and [final] is the text after
    the heading rewrite. *)
Definition produced (h : Host) (argv : ParsedArgs) (final : jsstring) : Prop :=
  code (fetched h argv) = 0%Z /\
  exists rendered,
    rendering h argv = inr rendered /\
    final = rewrite_heading (title argv) (removeTitle argv) rendered.

Definition dry_run_printed (h : Host) (argv : ParsedArgs) : Prop :=
  dry_run argv = true /\ exists final, produced h argv final.

Definition create_failed (h : Host) (argv : ParsedArgs) : Prop :=
  dry_run argv = false /\
  exists final, produced h argv final /\ code (created h argv final) <> 0%Z.

Definition note_created (h : Host) (argv : ParsedArgs) : Prop :=
  dry_run argv = false /\
  exists final, produced h argv final /\ code (created h argv final) = 0%Z.

(** The status is 1 exactly when the fetch or the creation of the note
    fails. *)
Definition exit_1_iff_fetch_or_create_failed (h : Host) (argv : ParsedArgs)
  : Prop :=
  exit_code (run h argv).1 = 1%Z <-> fetch_failed h argv \/ create_failed h argv.

(** The events of a run, by name. *)
Definition ev_show (argv : ParsedArgs) : event :=
  Command (lit "nb") (show_args (template argv)).

Definition ev_render (h : Host) (argv : ParsedArgs) : event :=
  EtaRender (text_decode h (stdout (fetched h argv))) (render_scope argv).

Definition ev_add (argv : ParsedArgs) (content : jsstring) : event :=
  Command (lit "nb") (add_args (note argv) content).

End Outcome.
Export Outcome.

(* ===================================================================== *)
(** ** The renderer, from the specification *)
(* ===================================================================== *)

Module EtaSpec.

(** Modelled from the spec: the template syntax of Eta, which is not part
    of the source. Section 4.2 speaks of a fixed open and close tag syntax,
    section 8 writes the tags [<%= name %>]: a template is text with tags
    between [<%] and [%>]. *)
Inductive piece : Type :=
| Text (s : jsstring)
| Tag (body : jsstring).

Definition lt_sign : code_unit := 60.
Definition percent : code_unit := 37.
Definition gt_sign : code_unit := 62.
Definition equals : code_unit := 61.
Definition space : code_unit := 32.

(** Modelled from the spec: Eta's cutting of a template at its delimiters.
    [acc] is the current piece, backwards. A tag that is not closed is a
    malformed template (section 7). *)
Fixpoint scan (in_tag : bool) (acc : jsstring) (s : jsstring)
  : option (list piece) :=
  match s with
  | [] => if in_tag then None else Some [Text (rev acc)]
  | c :: s' =>
      match s' with
      | d :: s'' =>
          if in_tag then
            if (c =? percent) && (d =? gt_sign)
            then cons (Tag (rev acc)) <$> scan false [] s''
            else scan true (c :: acc) s'
          else
            if (c =? lt_sign) && (d =? percent)
            then cons (Text (rev acc)) <$> scan true [] s''
            else scan false (c :: acc) s'
      | [] => if in_tag then None else Some [Text (rev (c :: acc))]
      end
  end.

Definition parse (template : jsstring) : option (list piece) :=
  scan false [] template.

(** Modelled from the spec: the expressions of Eta's tags, which are
    JavaScript in Eta itself. Section 4.2 speaks of two: a bare variable
    name, and a call of the date-formatting function with a format string,
    written [f().format('...')] as in the help text of the script. *)
Inductive expr : Type :=
| EVar (name : jsstring)
| EFormat (fn : jsstring) (fmt : jsstring).

Definition is_digit (c : code_unit) : bool := (48 <=? c) && (c <=? 57).

Definition is_ident_start (c : code_unit) : bool :=
  ((65 <=? c) && (c <=? 90)) || ((97 <=? c) && (c <=? 122))
  || (c =? 95) || (c =? dollar).

Definition is_ident_char (c : code_unit) : bool :=
  is_ident_start c || is_digit c.

Fixpoint skip_spaces (s : jsstring) : jsstring :=
  match s with
  | c :: s' => if c =? space then skip_spaces s' else s
  | [] => []
  end.

Definition trim (s : jsstring) : jsstring :=
  rev (skip_spaces (rev (skip_spaces s))).

(** The longest prefix of identifier characters, and the rest. *)
Fixpoint span_ident (s : jsstring) : jsstring * jsstring :=
  match s with
  | c :: s' =>
      if is_ident_char c
      then let '(name, rest) := span_ident s' in (c :: name, rest)
      else ([], s)
  | [] => ([], [])
  end.

Fixpoint strip_prefix (p s : jsstring) : option jsstring :=
  match p, s with
  | [], _ => Some s
  | a :: p', b :: s' => if a =? b then strip_prefix p' s' else None
  | _ :: _, [] => None
  end.

Definition strip_suffix (p s : jsstring) : option jsstring :=
  (fun r : jsstring => rev r) <$> strip_prefix (rev p) (rev s).

Definition parse_expr (body : jsstring) : option expr :=
  match span_ident (trim body) with
  | (c :: name, rest) =>
      if is_ident_start c then
        match rest with
        | [] => Some (EVar (c :: name))
        | _ =>
            fmt ← strip_prefix (lit "().format('") rest ≫=
                  strip_suffix (lit "')");
            if bool_decide (quote ∈ fmt) then None
            else Some (EFormat (c :: name) fmt)
        end
      else None
  | ([], _) => None
  end.


Section Render.

(** The text of a value that is not a string, and the current date in
    a given format: both are left to the host. *)
Variable display : js_value -> jsstring.
Variable format_now : jsstring -> jsstring.

Definition value_text (v : js_value) : jsstring :=
  match v with
  | JString s => s
  | _ => display v
  end.

(** Modelled from the spec: the evaluation of an expression by Eta.
    Section 4.2: bare names resolve against the mapping, and a name that is
    not bound is a rendering error. *)
Definition eval (scope : gmap jsstring js_value) (e : expr)
  : jsstring + jsstring :=
  match e with
  | EVar name =>
      match scope !! name with
      | Some v => inr (value_text v)
      | None => inl (name ++ lit " is not defined")
      end
  | EFormat fn fmt =>
      match scope !! fn with
      | Some JMomentFn => inr (format_now fmt)
      | Some _ => inl (fn ++ lit " is not a function")
      | None => inl (fn ++ lit " is not defined")
      end
  end.

(** Modelled from the spec: an output tag [<%= e %>] gives the value of
    [e] (sections 4.2 and 8); text is copied. *)
Definition render_piece (scope : gmap jsstring js_value) (p : piece)
  : jsstring + jsstring :=
  match p with
  | Text s => inr s
  | Tag body =>
      match body with
      | c :: e =>
          if c =? equals then
            match parse_expr e with
            | Some ex => eval scope ex
            | None => inl (lit "Bad template syntax")
            end
          else inl (lit "Bad template syntax")
      | [] => inl (lit "Bad template syntax")
      end
  end.

Fixpoint render_pieces (scope : gmap jsstring js_value) (ps : list piece)
  : jsstring + jsstring :=
  match ps with
  | [] => inr []
  | p :: ps' =>
      match render_piece scope p with
      | inl e => inl e
      | inr s =>
          match render_pieces scope ps' with
          | inl e => inl e
          | inr r => inr (s ++ r)
          end
      end
  end.

(** Modelled from the spec: Eta's [renderString], which [renderTemplate]
    calls and which is a dependency of the script, not part of its
    source. Section 4.2: tags in a fixed open and close syntax, output
    tags that give the value of their expression, bare names resolved
    against the mapping, the date function called with a format string,
    an error for a name that is not bound or a malformed expression,
    one pass and no effect. *)
Definition renderString (template : jsstring)
           (scope : gmap jsstring js_value) : jsstring + jsstring :=
  match parse template with
  | Some ps => render_pieces scope ps
  | None => inl (lit "Bad template syntax")
  end.

End Render.


End EtaSpec.

(* ===================================================================== *)
(** ** A host for the examples *)
(* ===================================================================== *)

Module Demo.

(** Texts of one byte per code unit. *)
Definition decode (bs : list byte) : jsstring := List.map Byte.to_N bs.
Definition encode (s : jsstring) : list byte :=
  List.map (fun c => default x00 (Byte.of_N c)) s.


(** [nb show] answers [shown] and [nb add] answers [added]; the renderer
    is the one of the specification. *)
Definition host (shown added : CommandOutput) : Host :=
  {| command_output := fun _ args =>
       match args with
       | a :: _ => if bool_decide (a = lit "show") then shown else added
       | [] => added
       end;
     eta_renderString :=
       EtaSpec.renderString (fun _ => lit "[object]") (fun fmt => fmt);
     text_decode := decode;
     text_encode := encode |}.

Definition ok (out : jsstring) : CommandOutput :=
  {| code := 0; stdout := encode out; stderr := [] |}.

Definition failed (err : jsstring) : CommandOutput :=
  {| code := 1; stdout := []; stderr := encode err |}.

Definition nl : jsstring := [10].

Definition args (title : option jsstring) (removeTitle dry_run : bool)
  : ParsedArgs :=
  parse_args 0 {| cl_template := lit "tpl"; cl_note := lit "new.md";
                  cl_date := Some (lit "2024-01-01"); cl_title := title;
                  cl_removeTitle := Some removeTitle;
                  cl_dry_run := Some dry_run;
                  cl_vars := {[ lit "name" := lit "Ann" ]} |}.

End Demo.

(* ===================================================================== *)
(** ** Replacement patterns and line breaks *)
(* ===================================================================== *)

Module Patterns.

(** The code units that make a replacement pattern after a [$]. *)
Definition is_pattern_char (d : code_unit) : bool :=
  (d =? dollar) || (d =? amp) || (d =? backtick) || (d =? quote).

(** No [$] of the text is followed by [$], [&], a backtick or a quote: the
    text has none of the patterns that [get_substitution] expands. *)
Fixpoint pattern_free (t : jsstring) : bool :=
  match t with
  | [] => true
  | c :: rest =>
      (if c =? dollar then
         match rest with
         | d :: _ => negb (is_pattern_char d)
         | [] => true
         end
       else true) && pattern_free rest
  end.

(** The number of line terminators of a text. *)
Definition line_breaks (s : jsstring) : nat :=
  length (List.filter is_line_terminator s).

(** The event is a write to standard output. *)
Definition is_stdout_write (e : event) : bool :=
  match e with
  | StdoutWrite _ => true
  | _ => false
  end.

(** The event is a call of the renderer. *)
Definition is_render (e : event) : bool :=
  match e with
  | EtaRender _ _ => true
  | _ => false
  end.

End Patterns.
Export Patterns.

(* ===================================================================== *)
(** ** The matcher finds the first heading line *)
(* ===================================================================== *)

Section MatcherCorrect.

Lemma hash_not_terminator : is_line_terminator hash = false.
Proof. reflexivity. Qed.

Lemma ends_at_line_start_last (pre : jsstring) :
  ends_at_line_start pre <-> at_line_start (last pre) = true.
Proof.
  split.
  - intros [-> | (p & c & -> & Hc)]; [reflexivity |].
    rewrite last_snoc. exact Hc.
  - destruct pre as [| a pre] using rev_ind; [now left |].
    rewrite last_snoc. simpl. intros Hc. right. eauto.
Qed.

Lemma starts_at_line_end_iff (post : jsstring) :
  starts_at_line_end post <-> at_line_end post = true.
Proof.
  split.
  - intros [-> | (c & p & -> & Hc)]; [reflexivity | exact Hc].
  - destruct post as [| c p]; [now left |]. simpl. intros Hc. right. eauto.
Qed.

Lemma line_len_le (s : jsstring) : (line_len s <= length s)%nat.
Proof.
  induction s as [| c s IH]; simpl; [lia |].
  destruct (is_line_terminator c); simpl; lia.
Qed.

Lemma line_len_take (s : jsstring) : no_terminator (take (line_len s) s).
Proof.
  induction s as [| c s IH]; simpl; [constructor |].
  destruct (is_line_terminator c) eqn:Hc; simpl; constructor; auto.
Qed.

Lemma line_len_drop (s : jsstring) :
  starts_at_line_end (drop (line_len s) s).
Proof.
  induction s as [| c s IH]; simpl; [now left |].
  destruct (is_line_terminator c) eqn:Hc; simpl; [right; eauto | exact IH].
Qed.

(** A line without terminator followed by a line end is the rest of the
    current line. *)
Lemma line_len_unique (l post : jsstring) :
  no_terminator l -> starts_at_line_end post ->
  line_len (l ++ post) = length l.
Proof.
  intros Hl Hp. induction Hl as [| c l Hc _ IH]; simpl.
  - destruct Hp as [-> | (c & p & -> & Hc)]; simpl; [reflexivity |].
    now rewrite Hc.
  - rewrite Hc. now rewrite IH.
Qed.

(** The star of [.] followed by [$] consumes exactly the rest of the line. *)
Lemma star_dot_eol (prev : option code_unit) (s : jsstring) :
  star_loop CDot (match_terms [TEol]) prev s = Some (line_len s).
Proof.
  revert prev. induction s as [| c s IH]; intros prev; simpl; [reflexivity |].
  destruct (is_line_terminator c) eqn:Hc; simpl.
  - reflexivity.
  - now rewrite IH.
Qed.

(** The pattern at one position, in closed form. *)
Lemma match_heading_re (prev : option code_unit) (s : jsstring) :
  match_terms heading_re prev s =
  if at_line_start prev then
    match s with
    | c :: s' => if c =? hash then Some (S (line_len s')) else None
    | [] => None
    end
  else None.
Proof.
  unfold heading_re. cbn [match_terms].
  destruct (at_line_start prev); [| reflexivity].
  destruct s as [| c s']; [reflexivity |].
  cbn [cls_matches]. destruct (c =? hash); [| reflexivity].
  now rewrite star_dot_eol.
Qed.

(** What a heading line that starts right after [done] looks like. *)
Lemma heading_line_at (done s line post : jsstring) :
  heading_line (done ++ s) done line post <->
  at_line_start (last done) = true /\
  exists s', s = hash :: s' /\
             line = hash :: take (line_len s') s' /\
             post = drop (line_len s') s'.
Proof.
  split.
  - intros [Hsplit Hstart [l ->] Hbody Hend].
    apply app_inv_head in Hsplit. subst s.
    split; [now apply ends_at_line_start_last |].
    exists (l ++ post). split; [reflexivity |].
    inversion Hbody as [| ? ? _ Hl]; subst.
    rewrite (line_len_unique l post Hl Hend).
    now rewrite take_app_length, drop_app_length.
  - intros (Hstart & s' & -> & -> & ->). constructor.
    + f_equal. simpl. f_equal. symmetry. apply take_drop.
    + now apply ends_at_line_start_last.
    + eauto.
    + constructor; [apply hash_not_terminator | apply line_len_take].
    + apply line_len_drop.
Qed.

Lemma match_heading_sound (done s : jsstring) (n : nat) :
  match_terms heading_re (last done) s = Some n ->
  heading_line (done ++ s) done (take n s) (drop n s).
Proof.
  rewrite match_heading_re. intros H.
  destruct (at_line_start (last done)) eqn:Hstart; [| discriminate].
  destruct s as [| c s']; [discriminate |].
  destruct (c =? hash) eqn:Hc; [| discriminate].
  apply N.eqb_eq in Hc. subst c. injection H as <-.
  apply heading_line_at. split; [exact Hstart |]. eauto.
Qed.

Lemma match_heading_complete (done s line post : jsstring) :
  heading_line (done ++ s) done line post ->
  match_terms heading_re (last done) s = Some (length line).
Proof.
  intros H. apply heading_line_at in H.
  destruct H as (Hstart & s' & -> & -> & ->).
  rewrite match_heading_re, Hstart, N.eqb_refl. simpl.
  rewrite length_take. f_equal. f_equal. pose proof (line_len_le s'). lia.
Qed.

Lemma match_heading_len (prev : option code_unit) (s : jsstring) (n : nat) :
  match_terms heading_re prev s = Some n -> (n <= length s)%nat.
Proof.
  rewrite match_heading_re. intros H.
  destruct (at_line_start prev); [| discriminate].
  destruct s as [| c s']; [discriminate |].
  destruct (c =? hash); [| discriminate].
  injection H as <-. pose proof (line_len_le s'). simpl. lia.
Qed.

Lemma heading_line_pre_eq (done s pre line post : jsstring) :
  heading_line (done ++ s) pre line post ->
  length pre = length done -> pre = done.
Proof.
  intros [Hsplit _ _ _ _] Hlen.
  symmetry in Hlen. now destruct (app_inj_1 _ _ _ _ Hlen Hsplit).
Qed.

Lemma heading_line_pre_lt (s pre line post : jsstring) :
  heading_line s pre line post -> (length pre < length s)%nat.
Proof.
  intros [-> _ [l ->] _ _]. rewrite !length_app. simpl. lia.
Qed.

(** The scan from the left: the invariant of [exec_from]. [done] is the
    part of the input already skipped. *)
Lemma exec_from_heading (s done : jsstring) :
  match exec_from heading_re (last done) s (length done) with
  | Some (i, n) =>
      (i + n <= length (done ++ s))%nat /\
      heading_line (done ++ s) (take i (done ++ s))
                   (take n (drop i (done ++ s)))
                   (drop (i + n) (done ++ s)) /\
      forall pre line post,
        heading_line (done ++ s) pre line post ->
        (length done <= length pre)%nat -> (i <= length pre)%nat
  | None =>
      forall pre line post,
        heading_line (done ++ s) pre line post ->
        (length pre < length done)%nat
  end.
Proof.
  revert done. induction s as [| c s IH]; intros done.
  - cbn [exec_from].
    destruct (match_terms heading_re (last done) []) as [n |] eqn:Hm.
    + rewrite match_heading_re in Hm.
      destruct (at_line_start (last done)); discriminate.
    + intros pre line post H. apply heading_line_pre_lt in H.
      now rewrite app_nil_r in H.
  - cbn [exec_from].
    destruct (match_terms heading_re (last done) (c :: s)) as [n |] eqn:Hm.
    + split; [| split; [| intros; assumption]].
      * apply match_heading_len in Hm. rewrite length_app. lia.
      * rewrite take_app_length, <- drop_drop, !drop_app_length.
        now apply match_heading_sound.
    + specialize (IH (done ++ [c])).
      rewrite last_snoc, length_app, Nat.add_1_r, <- app_assoc in IH.
      cbn [app] in IH.
      assert (Hnot : forall pre line post,
                 heading_line (done ++ c :: s) pre line post ->
                 length pre <> length done).
      { intros pre line post H Hlen.
        pose proof (heading_line_pre_eq _ _ _ _ _ H Hlen) as ->.
        apply match_heading_complete in H. congruence. }
      destruct (exec_from heading_re (Some c) s (S (length done)))
        as [[i n] |].
      * destruct IH as (Hb & Hl & Hmin). split; [exact Hb |].
        split; [exact Hl |].
        intros pre line post H Hle.
        apply (Hmin pre line post H).
        specialize (Hnot pre line post H). lia.
      * intros pre line post H.
        specialize (IH pre line post H).
        specialize (Hnot pre line post H). lia.
Qed.

(** Two first heading lines of one text are the same line. *)
Lemma first_heading_line_unique (s pre line post pre' line' post' : jsstring) :
  first_heading_line s pre line post ->
  first_heading_line s pre' line' post' ->
  pre = pre' /\ line = line' /\ post = post'.
Proof.
  intros [H Hmin] [H' Hmin'].
  assert (Hlen : length pre = length pre').
  { specialize (Hmin _ _ _ H'). specialize (Hmin' _ _ _ H). lia. }
  pose proof (hl_split _ _ _ _ H) as E.
  pose proof (hl_split _ _ _ _ H') as E'.
  rewrite E in E'. destruct (app_inj_1 _ _ _ _ Hlen E') as [-> E2].
  split; [reflexivity |].
  rewrite E in H, H'.
  apply heading_line_at in H, H'.
  destruct H as (_ & s1 & E1 & -> & ->).
  destruct H' as (_ & s2 & E3 & -> & ->).
  rewrite E1 in E3. injection E3 as ->. now split.
Qed.

(** The matcher returns the first heading line of the text ... *)
Theorem exec_heading_some (s : jsstring) (i n : nat) :
  exec heading_re s = Some (i, n) ->
  first_heading_line s (take i s) (take n (drop i s)) (drop (i + n) s).
Proof.
  intros He. pose proof (exec_from_heading s []) as H.
  cbn [last length app] in H. unfold exec in He. rewrite He in H.
  destruct H as (_ & Hl & Hmin). split; [exact Hl |].
  intros pre line post H. rewrite length_take.
  specialize (Hmin _ _ _ H). lia.
Qed.

Lemma exec_heading_bound (s : jsstring) (i n : nat) :
  exec heading_re s = Some (i, n) -> (i + n <= length s)%nat.
Proof.
  intros He. pose proof (exec_from_heading s []) as H.
  cbn [last length app] in H. unfold exec in He. rewrite He in H.
  now destruct H as (Hb & _).
Qed.

(** ... and none only when no line begins with [#]. *)
Theorem exec_heading_none (s : jsstring) :
  exec heading_re s = None -> no_heading_line s.
Proof.
  intros He. pose proof (exec_from_heading s []) as H.
  cbn [last length app] in H. unfold exec in He. rewrite He in H.
  intros pre line post Hl. specialize (H _ _ _ Hl). lia.
Qed.

Theorem exec_heading_first (s pre line post : jsstring) :
  first_heading_line s pre line post ->
  exec heading_re s = Some (length pre, length line).
Proof.
  intros Hf. destruct (exec heading_re s) as [[i n] |] eqn:He.
  - pose proof (exec_heading_bound _ _ _ He) as Hb.
    apply exec_heading_some in He.
    destruct (first_heading_line_unique _ _ _ _ _ _ _ Hf He) as (E1 & E2 & E3).
    f_equal. f_equal.
    + rewrite E1, length_take. lia.
    + rewrite E2, length_take, length_drop. lia.
  - apply exec_heading_none in He. destruct Hf as [Hl _].
    now apply He in Hl.
Qed.

Theorem exec_heading_no_line (s : jsstring) :
  no_heading_line s -> exec heading_re s = None.
Proof.
  intros Hn. destruct (exec heading_re s) as [[i n] |] eqn:He;
    [| reflexivity].
  apply exec_heading_some in He. destruct He as [Hl _].
  now apply Hn in Hl.
Qed.

End MatcherCorrect.

(* ===================================================================== *)
(** ** Replacing the first heading line *)
(* ===================================================================== *)

Section ReplaceHeading.

Lemma replace_first_heading (s pre line post repl : jsstring) :
  first_heading_line s pre line post ->
  replace heading_re repl s = pre ++ get_substitution line pre post repl ++ post.
Proof.
  intros Hf. unfold replace.
  rewrite (exec_heading_first _ _ _ _ Hf).
  destruct Hf as [[-> _ _ _ _] _].
  rewrite take_app_length, <- drop_drop, drop_app_length.
  now rewrite take_app_length, drop_app_length.
Qed.

Lemma replace_no_heading (s repl : jsstring) :
  no_heading_line s -> replace heading_re repl s = s.
Proof.
  intros Hn. unfold replace. now rewrite (exec_heading_no_line _ Hn).
Qed.

(** Every text has a first heading line or none at all. *)
Lemma heading_line_cases (s : jsstring) :
  (exists pre line post, first_heading_line s pre line post) \/
  no_heading_line s.
Proof.
  destruct (exec heading_re s) as [[i n] |] eqn:He.
  - left. apply exec_heading_some in He. eauto.
  - right. now apply exec_heading_none.
Qed.

(** A replacement text without [$] is inserted as it is. *)
Lemma get_substitution_plain (matched before after repl : jsstring) :
  dollar ∉ repl -> get_substitution matched before after repl = repl.
Proof.
  induction repl as [| c repl IH]; intros Hd; [reflexivity |].
  apply not_elem_of_cons in Hd as [Hc Hd]. cbn [get_substitution].
  destruct (c =? dollar) eqn:E; [apply N.eqb_eq in E; congruence |].
  now rewrite IH.
Qed.

End ReplaceHeading.

(* ===================================================================== *)
(** ** The runs of the handler *)
(* ===================================================================== *)

Section Runs.

Variable h : Host.
Variable argv : ParsedArgs.

(** Every run, by the answers of the host. *)
Lemma run_cases :
  run h argv =
  if negb (code (fetched h argv) =? 0)%Z then
    (Exit 1, [ev_show argv; ConsoleError (JBytes (stderr (fetched h argv)))])
  else
    match rendering h argv with
    | inl e => (Throw e, [ev_show argv; ev_render h argv])
    | inr rendered =>
        let final := rewrite_heading (title argv) (removeTitle argv) rendered in
        if dry_run argv then
          (Exit 0, [ev_show argv; ev_render h argv;
                    StdoutWrite (text_encode h final)])
        else if negb (code (created h argv final) =? 0)%Z then
          (Exit 1, [ev_show argv; ev_render h argv; ev_add argv final;
                    ConsoleError (JBytes (stderr (created h argv final)))])
        else
          (Value tt, [ev_show argv; ev_render h argv; ev_add argv final;
                      ConsoleLog (JString (lit "Note created."))])
    end.
Proof.
  unfold run, handler, getTemplate, renderTemplate, createNote, output,
    console_error, console_log, stdout_write, emit, Deno_exit, throw,
    rendering, created, fetched, ev_show, ev_render, ev_add, fetched.
  unfold mbind, M_bind, mret, M_ret. cbn [app].
  destruct (negb (code (command_output h (lit "nb")
                          (show_args (template argv))) =? 0)%Z);
    [reflexivity |].
  destruct (eta_renderString h _ _) as [e | rendered]; [reflexivity |].
  cbn [app]. destruct (dry_run argv); [reflexivity |]. cbn [app].
  destruct (negb (code (command_output h (lit "nb") _) =? 0)%Z);
    reflexivity.
Qed.

End Runs.

(* ===================================================================== *)
(** ** Dry run, failures and exit status *)
(* ===================================================================== *)

Section ExitStatus.

Variable h : Host.
Variable argv : ParsedArgs.

Lemma fetch_ok_eqb : code (fetched h argv) = 0%Z ->
  negb (code (fetched h argv) =? 0)%Z = false.
Proof. intros ->. reflexivity. Qed.

Lemma fetch_failed_eqb : fetch_failed h argv ->
  negb (code (fetched h argv) =? 0)%Z = true.
Proof. intros H. apply negb_true_iff, Z.eqb_neq, H. Qed.

(** A failed fetch ends the run at once: the captured error stream goes to
    [console.error] as the byte array it is, the status is 1 and [nb add]
    is not run. *)
Lemma run_fetch_failed : fetch_failed h argv ->
  run h argv =
  (Exit 1, [ev_show argv; ConsoleError (JBytes (stderr (fetched h argv)))]).
Proof. intros H. now rewrite run_cases, (fetch_failed_eqb H). Qed.

(** A renderer that throws ends the run with its error. *)
Lemma run_render_failed (e : jsstring) :
  code (fetched h argv) = 0%Z -> rendering h argv = inl e ->
  run h argv = (Throw e, [ev_show argv; ev_render h argv]).
Proof. intros Hc Hr. now rewrite run_cases, (fetch_ok_eqb Hc), Hr. Qed.

Lemma run_dry_run (final : jsstring) :
  dry_run argv = true -> produced h argv final ->
  run h argv =
  (Exit 0, [ev_show argv; ev_render h argv; StdoutWrite (text_encode h final)]).
Proof.
  intros Hd (Hc & rendered & Hr & ->).
  now rewrite run_cases, (fetch_ok_eqb Hc), Hr, Hd.
Qed.

Lemma run_create_failed (final : jsstring) :
  dry_run argv = false -> produced h argv final ->
  code (created h argv final) <> 0%Z ->
  run h argv =
  (Exit 1, [ev_show argv; ev_render h argv; ev_add argv final;
            ConsoleError (JBytes (stderr (created h argv final)))]).
Proof.
  intros Hd (Hc & rendered & Hr & ->) Hn.
  rewrite run_cases, (fetch_ok_eqb Hc), Hr, Hd. cbn zeta.
  apply Z.eqb_neq in Hn. now rewrite Hn.
Qed.

Lemma run_note_created (final : jsstring) :
  dry_run argv = false -> produced h argv final ->
  code (created h argv final) = 0%Z ->
  run h argv =
  (Value tt, [ev_show argv; ev_render h argv; ev_add argv final;
              ConsoleLog (JString (lit "Note created."))]).
Proof.
  intros Hd (Hc & rendered & Hr & ->) Hn.
  rewrite run_cases, (fetch_ok_eqb Hc), Hr, Hd. cbn zeta.
  now rewrite Hn.
Qed.

(** Every run ends in exactly one of five ways. *)
Lemma run_endings :
  fetch_failed h argv \/ render_failed h argv \/ dry_run_printed h argv \/
  create_failed h argv \/ note_created h argv.
Proof.
  unfold fetch_failed, render_failed, dry_run_printed, create_failed,
    note_created, produced.
  destruct (Z.eq_dec (code (fetched h argv)) 0%Z) as [Hc | Hc]; [| now left].
  destruct (rendering h argv) as [e | rendered] eqn:Hr; [right; left; eauto |].
  destruct (dry_run argv) eqn:Hd; [right; right; left; eauto 10 |].
  set (final := rewrite_heading (title argv) (removeTitle argv) rendered).
  destruct (Z.eq_dec (code (created h argv final)) 0%Z) as [Ha | Ha].
  - do 4 right. eauto 10.
  - do 3 right. left. eauto 10.
Qed.

Lemma exit_code_fetch_failed : fetch_failed h argv ->
  exit_code (run h argv).1 = 1%Z.
Proof. intros H. now rewrite (run_fetch_failed H). Qed.

Lemma exit_code_render_failed : render_failed h argv ->
  exit_code (run h argv).1 = 1%Z.
Proof. intros (Hc & e & Hr). now rewrite (run_render_failed e Hc Hr). Qed.

Lemma exit_code_dry_run : dry_run_printed h argv ->
  exit_code (run h argv).1 = 0%Z.
Proof. intros (Hd & final & Hp). now rewrite (run_dry_run final Hd Hp). Qed.

Lemma exit_code_create_failed : create_failed h argv ->
  exit_code (run h argv).1 = 1%Z.
Proof.
  intros (Hd & final & Hp & Hn). now rewrite (run_create_failed final Hd Hp Hn).
Qed.

Lemma exit_code_note_created : note_created h argv ->
  exit_code (run h argv).1 = 0%Z.
Proof.
  intros (Hd & final & Hp & Hn). now rewrite (run_note_created final Hd Hp Hn).
Qed.

End ExitStatus.



(** C2. When [nb show] fails with the diagnostic [Not found], the handler
    ends the process with status 1 and never runs [nb add], but what it
    passes to [console.error] is the captured error stream as a byte array,
    not the diagnostic as text. *)
Theorem fetch_failure_logs_byte_array :
  let h := Demo.host (Demo.failed (lit "Not found")) (Demo.ok []) in
  let argv := Demo.args None true false in
  run h argv =
    (Exit 1, [ev_show argv;
              ConsoleError (JBytes (Demo.encode (lit "Not found")))]) /\
  Forall (fun e => e <> ConsoleError (JString (lit "Not found"))) (run h argv).2.
Proof.
  intros h argv.
  assert (Hf : fetch_failed h argv) by (vm_compute; discriminate).
  rewrite (run_fetch_failed h argv Hf). split; [reflexivity |].
  repeat constructor; discriminate.
Qed.

(** C5, as stated, fails: a template that refers to a name that is not
    bound is fetched, the renderer throws, and the process ends with
    status 1 although neither [nb show] nor [nb add] failed. *)
Lemma exit_1_on_render_failure :
  ~ exit_1_iff_fetch_or_create_failed
      (Demo.host (Demo.ok (lit "Hello <%= nme %>")) (Demo.ok []))
      (Demo.args None true false).
Proof.
  set (h := Demo.host _ _). set (argv := Demo.args _ _ _).
  assert (Hr : rendering h argv = inl (lit "nme is not defined"))
    by (vm_compute; reflexivity).
  assert (Hc : code (fetched h argv) = 0%Z) by reflexivity.
  intros [Hexit _].
  destruct Hexit as [Hf | (_ & final & (_ & rendered & Hr' & _) & _)].
  - now rewrite (run_render_failed h argv _ Hc Hr).
  - now apply Hf.
  - rewrite Hr in Hr'. discriminate.
Qed.

(** C5, amended. The status is 0 exactly on a dry-run print and on a
    created note, and 1 exactly when the fetch fails, the renderer throws or
    the creation fails; a note is created exactly when the run is [nb show],
    the renderer, [nb add] with the final text and then the confirmation
    [Note created.], after which the handler returns. *)
Theorem exit_status_by_ending (h : Host) (argv : ParsedArgs) :
  (exit_code (run h argv).1 = 0%Z <->
   dry_run_printed h argv \/ note_created h argv) /\
  (exit_code (run h argv).1 = 1%Z <->
   fetch_failed h argv \/ render_failed h argv \/ create_failed h argv) /\
  (note_created h argv <->
   exists final,
     run h argv =
     (Value tt, [ev_show argv; ev_render h argv; ev_add argv final;
                 ConsoleLog (JString (lit "Note created."))])).
Proof.
  pose proof (exit_code_fetch_failed h argv) as H1.
  pose proof (exit_code_render_failed h argv) as H2.
  pose proof (exit_code_dry_run h argv) as H3.
  pose proof (exit_code_create_failed h argv) as H4.
  pose proof (exit_code_note_created h argv) as H5.
  pose proof (run_endings h argv) as Hcases.
  split; [| split].
  - split; [| intros [? | ?]; auto].
    intros He. destruct Hcases as [H | [H | [H | [H | H]]]]; auto.
    + apply H1 in H. congruence.
    + apply H2 in H. congruence.
    + apply H4 in H. congruence.
  - split; [| intros [? | [? | ?]]; auto].
    intros He. destruct Hcases as [H | [H | [H | [H | H]]]]; auto.
    + apply H3 in H. congruence.
    + apply H5 in H. congruence.
  - split.
    + intros (Hd & final & Hp & Hn). exists final.
      now apply run_note_created.
    + intros (final & Hrun).
      destruct Hcases as [H | [H | [H | [H | H]]]]; [| | | | exact H].
      * rewrite (run_fetch_failed h argv H) in Hrun. discriminate.
      * destruct H as (Hc & e & Hr).
        rewrite (run_render_failed h argv e Hc Hr) in Hrun. discriminate.
      * destruct H as (Hd & f & Hp).
        rewrite (run_dry_run h argv f Hd Hp) in Hrun. discriminate.
      * destruct H as (Hd & f & Hp & Hn).
        rewrite (run_create_failed h argv f Hd Hp Hn) in Hrun. discriminate.
Qed.

(* ===================================================================== *)
(** ** The heading rewrite *)
(* ===================================================================== *)

Section HeadingRewrite.

(** Removing: the first heading line goes, the text around it stays. *)
Lemma remove_heading_spec (rendered : jsstring) :
  (exists pre line post,
      first_heading_line rendered pre line post /\
      replace heading_re [] rendered = pre ++ post) \/
  (no_heading_line rendered /\ replace heading_re [] rendered = rendered).
Proof.
  destruct (heading_line_cases rendered) as [(pre & line & post & Hf) | Hn].
  - left. exists pre, line, post. split; [exact Hf |].
    now rewrite (replace_first_heading _ _ _ _ [] Hf).
  - right. split; [exact Hn | now apply replace_no_heading].
Qed.

Lemma hash_space_plain : dollar ∉ lit "# ".
Proof. compute_done. Qed.

(** Replacing by a title without [$]: the first heading line becomes
    [# title], the text around it stays. *)
Lemma replace_heading_by_title (title rendered pre line post : jsstring) :
  dollar ∉ title ->
  first_heading_line rendered pre line post ->
  replace heading_re (lit "# " ++ title) rendered =
  pre ++ (lit "# " ++ title) ++ post.
Proof.
  intros Hd Hf. rewrite (replace_first_heading _ _ _ _ _ Hf).
  rewrite get_substitution_plain; [reflexivity |].
  rewrite elem_of_app. intros [H | H]; [now apply hash_space_plain | auto].
Qed.

(** The title branch of the handler, for a title that is not empty and
    has no [$]. *)
Lemma rewrite_heading_title (c : code_unit) (t rendered : jsstring)
      (removeTitle : bool) :
  dollar ∉ c :: t ->
  (exists pre line post,
      first_heading_line rendered pre line post /\
      rewrite_heading (Some (c :: t)) removeTitle rendered =
      pre ++ (lit "# " ++ c :: t) ++ post) \/
  (no_heading_line rendered /\
   rewrite_heading (Some (c :: t)) removeTitle rendered = rendered).
Proof.
  intros Hd. unfold rewrite_heading. cbn [truthy to_string default].
  destruct (heading_line_cases rendered) as [(pre & line & post & Hf) | Hn].
  - left. exists pre, line, post. split; [exact Hf |].
    now apply (replace_heading_by_title _ _ _ line).
  - right. split; [exact Hn | now apply replace_no_heading].
Qed.

(** The example of the specification: [# Old Title] and the title [New]. *)
Example rewrite_old_title :
  rewrite_heading (Some (lit "New")) true
    (lit "intro" ++ Demo.nl ++ lit "# Old Title" ++ Demo.nl ++ lit "# Later")
  = lit "intro" ++ Demo.nl ++ lit "# New" ++ Demo.nl ++ lit "# Later".
Proof. vm_compute. reflexivity. Qed.

(** When a line that begins with [#] remains, a second removal does change
    the text. *)
Example remove_heading_twice :
  let s := lit "# A" ++ Demo.nl ++ lit "# B" in
  rewrite_heading None true s = Demo.nl ++ lit "# B" /\
  rewrite_heading None true (rewrite_heading None true s) = Demo.nl.
Proof. vm_compute. split; reflexivity. Qed.

End HeadingRewrite.

(** C3. With the title [$&] the first heading line [# Old Title] does not
    become [# $&]: [replace] reads [$&] in its replacement text as "the
    matched text", and the line becomes [# # Old Title]. The rest of the
    text is unchanged. *)
Theorem title_with_dollar_pattern :
  let rendered := lit "# Old Title" ++ Demo.nl ++ lit "body" in
  first_heading_line rendered [] (lit "# Old Title") (Demo.nl ++ lit "body") /\
  rewrite_heading (Some (lit "$&")) true rendered =
    lit "# # Old Title" ++ Demo.nl ++ lit "body" /\
  rewrite_heading (Some (lit "$&")) true rendered <>
    lit "# $&" ++ Demo.nl ++ lit "body".
Proof.
  intros rendered. split; [| split].
  - assert (He : exec heading_re rendered = Some (0, 11)%nat)
      by (vm_compute; reflexivity).
    apply exec_heading_some in He. exact He.
  - vm_compute. reflexivity.
  - vm_compute. discriminate.
Qed.

(** C4. Without a title: when [removeTitle] is true, which is its default,
    the first line that begins with [#] is replaced by nothing, so that the
    text before it and the text after it, line terminators included, are
    joined as they are, and a text without such a line is unchanged; when
    [removeTitle] is false the text is returned as it is. *)
Theorem no_title_removes_or_keeps (rendered : jsstring) :
  (forall today t n d ti dr v,
      removeTitle (parse_args today
                     {| cl_template := t; cl_note := n; cl_date := d;
                        cl_title := ti; cl_removeTitle := None;
                        cl_dry_run := dr; cl_vars := v |}) = true) /\
  ((exists pre line post,
       first_heading_line rendered pre line post /\
       rewrite_heading None true rendered = pre ++ post) \/
   (no_heading_line rendered /\ rewrite_heading None true rendered = rendered)) /\
  rewrite_heading None false rendered = rendered.
Proof.
  split; [reflexivity |]. split; [| reflexivity].
  apply remove_heading_spec.
Qed.

(** C7. If, after one removal of the heading, no line of the result begins
    with [#], a second removal returns that result unchanged. *)
Theorem second_removal_is_noop (rendered : jsstring) :
  no_heading_line (rewrite_heading None true rendered) ->
  rewrite_heading None true (rewrite_heading None true rendered) =
  rewrite_heading None true rendered.
Proof.
  intros Hn. unfold rewrite_heading at 1. cbn [truthy].
  now apply replace_no_heading.
Qed.

Lemma second_removal_is_noop_witness :
  let rendered := lit "# Title" ++ Demo.nl ++ lit "body" in
  rewrite_heading None true rendered = Demo.nl ++ lit "body" /\
  rewrite_heading None true (rewrite_heading None true rendered) =
  rewrite_heading None true rendered.
Proof.
  intros rendered. split; [vm_compute; reflexivity |].
  apply (second_removal_is_noop rendered).
  apply exec_heading_none. vm_compute. reflexivity.
Defined.

(** C10. A title that is the empty string is falsy: the title branch is not
    taken and the handler does what it does without a title, that is, it
    removes the first line that begins with [#] when [removeTitle] is true
    and leaves the text as it is when [removeTitle] is false. *)
Theorem empty_title_is_no_title (removeTitle : bool) (rendered : jsstring) :
  truthy (Some []) = false /\
  rewrite_heading (Some []) removeTitle rendered =
  rewrite_heading None removeTitle rendered /\
  ((exists pre line post,
       first_heading_line rendered pre line post /\
       rewrite_heading (Some []) true rendered = pre ++ post) \/
   (no_heading_line rendered /\
    rewrite_heading (Some []) true rendered = rendered)) /\
  rewrite_heading (Some []) false rendered = rendered.
Proof.
  split; [reflexivity |]. split; [reflexivity |]. split; [| reflexivity].
  apply remove_heading_spec.
Qed.

(* ===================================================================== *)
(** ** The variables of the renderer *)
(* ===================================================================== *)

Section RenderScope.

Variable h : Host.
Variable argv : ParsedArgs.



End RenderScope.



(* ===================================================================== *)
(** ** Names that are not bound *)
(* ===================================================================== *)

Section Undefined.

Variable display : js_value -> jsstring.
Variable format_now : jsstring -> jsstring.




End Undefined.



(** C9. When [--date] is not on the command line, the [date] of the parsed
    arguments is the object that [moment()] returned when the options were
    declared: it is not a string, and it is that object that the renderer
    finds under the name [date]. *)
Theorem default_date_is_a_moment_object (today : Z) :
  let argv := parse_args today
                {| cl_template := lit "tpl"; cl_note := lit "new.md";
                   cl_date := None; cl_title := None;
                   cl_removeTitle := None; cl_dry_run := None;
                   cl_vars := ∅ |} in
  date argv = JMoment today /\
  is_string (date argv) = false /\
  render_scope argv !! lit "date" = Some (JMoment today).
Proof.
  intros argv. split; [reflexivity |]. split; [reflexivity |].
  unfold render_scope, argv_object.
  rewrite !lookup_insert_ne by (vm_compute; discriminate).
  apply lookup_insert_eq.
Qed.

(* ===================================================================== *)
(** ** More on the replacement text *)
(* ===================================================================== *)

Section Substitution.

Lemma pattern_free_substitution (matched before after t : jsstring) :
  pattern_free t = true -> get_substitution matched before after t = t.
Proof.
  induction t as [| c rest IH]; [reflexivity |].
  cbn [pattern_free get_substitution]. intros H.
  apply andb_true_iff in H as [Hc Hrest]. specialize (IH Hrest).
  destruct (c =? dollar) eqn:Ec; [| now rewrite IH].
  apply N.eqb_eq in Ec. subst c.
  destruct rest as [| d rest']; [reflexivity |].
  apply negb_true_iff in Hc. unfold is_pattern_char in Hc.
  repeat (apply orb_false_iff in Hc as [Hc ?]).
  rewrite Hc. repeat match goal with H : (d =? _) = false |- _ => rewrite H; clear H end.
  now rewrite IH.
Qed.

Lemma pattern_free_heading (t : jsstring) :
  pattern_free t = true -> pattern_free (lit "# " ++ t) = true.
Proof. intros H. exact H. Qed.

Lemma line_breaks_app (s1 s2 : jsstring) :
  line_breaks (s1 ++ s2) = (line_breaks s1 + line_breaks s2)%nat.
Proof. unfold line_breaks. now rewrite List.filter_app, length_app. Qed.

Lemma line_breaks_no_terminator (l : jsstring) :
  no_terminator l -> line_breaks l = O.
Proof.
  unfold line_breaks. induction 1 as [| c l Hc _ IH]; [reflexivity |].
  cbn [List.filter]. now rewrite Hc.
Qed.

End Substitution.

(* ===================================================================== *)
(** ** The heading line after a rewrite *)
(* ===================================================================== *)

Section AfterRewrite.

Lemma no_terminator_not_in (l : jsstring) (c : code_unit) :
  no_terminator l -> is_line_terminator c = true -> c ∉ l.
Proof.
  intros Hl Hc Hin. unfold no_terminator in Hl.
  rewrite Forall_forall in Hl. specialize (Hl c Hin). congruence.
Qed.

(** A heading line that starts before the end of [pre], where a line
    starts, also ends before it. *)
Lemma heading_line_before (pre x pre' line' post' : jsstring) :
  ends_at_line_start pre ->
  heading_line (pre ++ x) pre' line' post' ->
  (length pre' < length pre)%nat ->
  exists c r, is_line_terminator c = true /\
              pre = pre' ++ line' ++ c :: r /\ post' = (c :: r) ++ x.
Proof.
  intros Hstart [Hsplit _ [l Hhash] Hbody Hend] Hlt.
  destruct Hstart as [-> | (p & c & -> & Hc)]; [simpl in Hlt; lia |].
  (* the last code unit of [pre], a terminator, is not in the line *)
  assert (Hlast : forall k m, last k = Some c -> line' = k ++ m -> False).
  { intros k m Hk ->. apply last_Some_elem_of in Hk.
    apply (no_terminator_not_in _ c Hbody Hc). rewrite elem_of_app. now left. }
  apply app_eq_inv in Hsplit as [(k & Hk & Hx) | (k & Hk & _)].
  2:{ rewrite Hk, !length_app in Hlt. lia. }
  assert (Hklast : last k = Some c).
  { assert (k <> []) by (intros ->; rewrite app_nil_r in Hk; subst pre'; lia).
    rewrite <- (last_snoc c p), Hk, last_app.
    destruct (last k) eqn:E; [reflexivity |]. now apply last_None in E. }
  symmetry in Hx. apply app_eq_inv in Hx as [(m & Hm & Hpost) | (m & Hm & _)].
  - (* the line ends inside [pre] *)
    destruct m as [| b m].
    + exfalso. rewrite app_nil_r in Hm. subst k.
      apply (Hlast line' [] Hklast). now rewrite app_nil_r.
    + destruct Hend as [-> | (d & q & Hq & Hd)]; [discriminate |].
      rewrite Hpost in Hq. injection Hq as -> _.
      exists d, m. split; [exact Hd |]. split; [| exact Hpost].
      now rewrite Hk, Hm.
  - (* the line would run over the terminator that ends [pre] *)
    exfalso. exact (Hlast k m Hklast Hm).
Qed.

(** Putting another line that begins with [#] in the place of the first
    heading line makes it the first heading line. *)
Lemma first_heading_line_replace (s pre line post new : jsstring) :
  first_heading_line s pre line post ->
  no_terminator new -> (exists l, new = hash :: l) ->
  first_heading_line (pre ++ new ++ post) pre new post.
Proof.
  intros [Hl Hmin] Hnew Hhash. split.
  - destruct Hl. now constructor.
  - intros pre' line' post' H'.
    destruct (decide (length pre <= length pre')%nat) as [| Hlt]; [assumption |].
    exfalso.
    destruct (heading_line_before pre (new ++ post) pre' line' post')
      as (c & r & Hc & Hpre & Hpost); [apply Hl | exact H' | lia |].
    assert (Hs : heading_line s pre' line' ((c :: r) ++ line ++ post)).
    { destruct H' as [_ Hst Hh Hb _]. constructor; auto.
      - rewrite (hl_split _ _ _ _ Hl). rewrite Hpre at 1.
        now rewrite <- !app_assoc.
      - right. exists c, (r ++ line ++ post). auto. }
    specialize (Hmin _ _ _ Hs). lia.
Qed.

Lemma no_terminator_app (l1 l2 : jsstring) :
  no_terminator l1 -> no_terminator l2 -> no_terminator (l1 ++ l2).
Proof. unfold no_terminator. intros. now apply Forall_app. Qed.

Lemma no_terminator_hash_space : no_terminator (lit "# ").
Proof. repeat constructor. Qed.

End AfterRewrite.

(* ===================================================================== *)
(** ** Further properties of the heading rewrite *)
(* ===================================================================== *)

Section MoreRewrite.

Lemma replace_heading_pattern_free (repl rendered pre line post : jsstring) :
  pattern_free repl = true ->
  first_heading_line rendered pre line post ->
  replace heading_re repl rendered = pre ++ repl ++ post.
Proof.
  intros Hp Hf. rewrite (replace_first_heading _ _ _ _ _ Hf).
  now rewrite pattern_free_substitution.
Qed.

(** The title branch on a text with a heading line, for a title without
    patterns. *)
Lemma rewrite_title_first (c : code_unit) (t rendered pre line post : jsstring)
      (removeTitle : bool) :
  pattern_free (c :: t) = true ->
  first_heading_line rendered pre line post ->
  rewrite_heading (Some (c :: t)) removeTitle rendered =
  pre ++ (lit "# " ++ c :: t) ++ post.
Proof.
  intros Hp Hf. unfold rewrite_heading. cbn [truthy to_string default].
  apply (replace_heading_pattern_free _ _ _ line); [| exact Hf].
  now apply pattern_free_heading.
Qed.

Lemma rewrite_no_heading (title : option jsstring) (removeTitle : bool)
      (rendered : jsstring) :
  no_heading_line rendered ->
  rewrite_heading title removeTitle rendered = rendered.
Proof.
  intros Hn. unfold rewrite_heading.
  destruct (truthy title); [now apply replace_no_heading |].
  destruct removeTitle; [now apply replace_no_heading | reflexivity].
Qed.

Lemma rewrite_remove_first (rendered pre line post : jsstring) :
  first_heading_line rendered pre line post ->
  rewrite_heading None true rendered = pre ++ post.
Proof.
  intros Hf. unfold rewrite_heading. cbn [truthy].
  now rewrite (replace_first_heading _ _ _ _ [] Hf).
Qed.

End MoreRewrite.

(** X1. The match of [/^\#.*$/m] in a text is its first line that begins
    with [#], from the [#] up to the next line terminator (LF, CR, U+2028,
    U+2029) or the end of the text, and it lies within the text; there is no
    match exactly when no line begins with [#]; and a first heading line is
    what the matcher returns. *)
Theorem heading_regex_matches_first_line (s : jsstring) :
  match exec heading_re s with
  | Some (i, n) =>
      (i + n <= length s)%nat /\
      first_heading_line s (take i s) (take n (drop i s)) (drop (i + n) s)
  | None => no_heading_line s
  end /\
  (forall pre line post,
      first_heading_line s pre line post ->
      exec heading_re s = Some (length pre, length line)) /\
  (no_heading_line s -> exec heading_re s = None).
Proof.
  split; [| split].
  - destruct (exec heading_re s) as [[i n] |] eqn:He.
    + split; [now apply exec_heading_bound | now apply exec_heading_some].
    + now apply exec_heading_none.
  - intros pre line post. apply exec_heading_first.
  - apply exec_heading_no_line.
Qed.

(** X2. A title that is not empty and in which no [$] is followed by [$],
    [&], a backtick or a quote replaces the first line that begins with [#]
    by [# ] and the title; the text before and after that line is
    unchanged. A text without such a line is returned as it is. *)
Theorem title_without_pattern_replaces_line (c : code_unit)
        (t rendered : jsstring) (removeTitle : bool) :
  pattern_free (c :: t) = true ->
  (exists pre line post,
      first_heading_line rendered pre line post /\
      rewrite_heading (Some (c :: t)) removeTitle rendered =
      pre ++ (lit "# " ++ c :: t) ++ post) \/
  (no_heading_line rendered /\
   rewrite_heading (Some (c :: t)) removeTitle rendered = rendered).
Proof.
  intros Hp.
  destruct (heading_line_cases rendered) as [(pre & line & post & Hf) | Hn].
  - left. exists pre, line, post. split; [exact Hf |].
    now apply (rewrite_title_first _ _ _ _ line).
  - right. split; [exact Hn | now apply rewrite_no_heading].
Qed.

Lemma title_without_pattern_replaces_line_witness :
  let rendered := lit "intro" ++ Demo.nl ++ lit "# Old" ++ Demo.nl ++ lit "body" in
  pattern_free (lit "Cost $5") = true /\
  ((exists pre line post,
       first_heading_line rendered pre line post /\
       rewrite_heading (Some (lit "Cost $5")) true rendered =
       pre ++ (lit "# " ++ lit "Cost $5") ++ post) \/
   (no_heading_line rendered /\
    rewrite_heading (Some (lit "Cost $5")) true rendered = rendered)).
Proof.
  intros rendered. split; [reflexivity |].
  apply (title_without_pattern_replaces_line 67 (lit "ost $5") rendered true).
  reflexivity.
Defined.

(** X3. When no line of the text begins with [#], the heading rewrite
    returns the text as it is, whatever the title and [removeTitle]: the
    title is not added to a text without a heading line. *)
Theorem no_heading_no_change (title : option jsstring) (removeTitle : bool)
        (rendered : jsstring) :
  no_heading_line rendered ->
  rewrite_heading title removeTitle rendered = rendered.
Proof. apply rewrite_no_heading. Qed.

Lemma no_heading_no_change_witness :
  let rendered := lit "plain text" ++ Demo.nl ++ lit " # not at the start" in
  rewrite_heading (Some (lit "New")) true rendered = rendered /\
  rewrite_heading (Some (lit "New")) true [] = [].
Proof.
  intros rendered. split.
  - apply (no_heading_no_change (Some (lit "New")) true rendered).
    apply exec_heading_none. vm_compute. reflexivity.
  - apply (no_heading_no_change (Some (lit "New")) true []).
    apply exec_heading_none. vm_compute. reflexivity.
Defined.

(** X4. The heading rewrite keeps the number of line terminators of the
    text, when the title, if there is one, has no replacement pattern and no
    line terminator: removing the heading leaves its line empty and joins
    no lines. *)
Theorem rewrite_keeps_line_breaks (title : option jsstring) (removeTitle : bool)
        (rendered : jsstring) :
  (forall t, title = Some t -> pattern_free t = true /\ no_terminator t) ->
  line_breaks (rewrite_heading title removeTitle rendered) = line_breaks rendered.
Proof.
  intros Ht.
  destruct (heading_line_cases rendered) as [(pre & line & post & Hf) | Hn];
    [| now rewrite rewrite_no_heading].
  pose proof (hl_split _ _ _ _ (proj1 Hf)) as Hs.
  pose proof (line_breaks_no_terminator _ (hl_body _ _ _ _ (proj1 Hf))) as Hl.
  destruct title as [[| c t] |].
  - destruct removeTitle; [| reflexivity].
    change (rewrite_heading (Some []) true rendered)
      with (rewrite_heading None true rendered).
    rewrite (rewrite_remove_first _ _ _ _ Hf).
    rewrite Hs, !line_breaks_app. lia.
  - destruct (Ht _ eq_refl) as [Hp Hno].
    rewrite (rewrite_title_first _ _ _ _ _ _ removeTitle Hp Hf).
    rewrite Hs, !line_breaks_app.
    rewrite (line_breaks_no_terminator (lit "# ")) by apply no_terminator_hash_space.
    rewrite (line_breaks_no_terminator _ Hno). lia.
  - destruct removeTitle; [| reflexivity].
    rewrite (rewrite_remove_first _ _ _ _ Hf).
    rewrite Hs, !line_breaks_app. lia.
Qed.

Lemma rewrite_keeps_line_breaks_witness :
  let rendered := lit "intro" ++ Demo.nl ++ lit "# Old" ++ Demo.nl ++ lit "body" in
  line_breaks (rewrite_heading (Some (lit "New")) true rendered) =
  line_breaks rendered /\
  line_breaks rendered = 2%nat.
Proof.
  intros rendered. split; [| reflexivity].
  apply (rewrite_keeps_line_breaks (Some (lit "New")) true rendered).
  intros t [= <-]. split; [reflexivity | repeat constructor].
Defined.

(** X5. A rewrite with a title (not empty, without replacement pattern and
    without line terminator) is overwritten by the next rewrite: rewriting
    the result with a second title gives what the second title gives on the
    original text, so that rewriting twice with one title is rewriting
    once; and removing the heading of the result gives what removing it
    from the original text gives. *)
Theorem title_rewrite_is_overwritten (c : code_unit) (t rendered : jsstring)
        (removeTitle : bool) :
  pattern_free (c :: t) = true ->
  no_terminator (c :: t) ->
  let once := rewrite_heading (Some (c :: t)) removeTitle rendered in
  rewrite_heading (Some (c :: t)) removeTitle once = once /\
  (forall c2 t2 removeTitle2,
      pattern_free (c2 :: t2) = true ->
      rewrite_heading (Some (c2 :: t2)) removeTitle2 once =
      rewrite_heading (Some (c2 :: t2)) removeTitle2 rendered) /\
  rewrite_heading None true once = rewrite_heading None true rendered.
Proof.
  intros Hp Hno once.
  destruct (heading_line_cases rendered) as [(pre & line & post & Hf) | Hn].
  - assert (Honce : once = pre ++ (lit "# " ++ c :: t) ++ post)
      by now apply (rewrite_title_first _ _ _ _ line).
    assert (Hf' : first_heading_line once pre (lit "# " ++ c :: t) post).
    { rewrite Honce. apply (first_heading_line_replace rendered pre line post);
        [exact Hf | | now exists (lit " " ++ c :: t)].
      apply no_terminator_app; [apply no_terminator_hash_space | exact Hno]. }
    split; [| split].
    + now rewrite (rewrite_title_first _ _ _ _ _ _ removeTitle Hp Hf').
    + intros c2 t2 removeTitle2 Hp2.
      now rewrite (rewrite_title_first _ _ _ _ _ _ removeTitle2 Hp2 Hf'),
        (rewrite_title_first _ _ _ _ _ _ removeTitle2 Hp2 Hf).
    + now rewrite (rewrite_remove_first _ _ _ _ Hf'),
        (rewrite_remove_first _ _ _ _ Hf).
  - assert (Honce : once = rendered) by now apply rewrite_no_heading.
    rewrite Honce. split; [exact Honce |]. split; [reflexivity | reflexivity].
Qed.

Lemma title_rewrite_is_overwritten_witness :
  let rendered := lit "intro" ++ Demo.nl ++ lit "# Old" ++ Demo.nl ++ lit "# Later" in
  let once := rewrite_heading (Some (lit "New")) true rendered in
  once = lit "intro" ++ Demo.nl ++ lit "# New" ++ Demo.nl ++ lit "# Later" /\
  rewrite_heading (Some (lit "New")) true once = once.
Proof.
  intros rendered once. split; [vm_compute; reflexivity |].
  assert (Hno : no_terminator (lit "New")) by (vm_compute; repeat constructor).
  exact (proj1 (title_rewrite_is_overwritten 78 (lit "ew") rendered true
                  eq_refl Hno)).
Defined.

(* ===================================================================== *)
(** ** What a run never does *)
(* ===================================================================== *)

Section Never.

Variable h : Host.
Variable argv : ParsedArgs.

(** The five runs, with what decides each. *)
Lemma run_shapes :
  (fetch_failed h argv /\
   run h argv =
   (Exit 1, [ev_show argv; ConsoleError (JBytes (stderr (fetched h argv)))])) \/
  (exists e, code (fetched h argv) = 0%Z /\ rendering h argv = inl e /\
             run h argv = (Throw e, [ev_show argv; ev_render h argv])) \/
  (exists final, dry_run argv = true /\ produced h argv final /\
     run h argv =
     (Exit 0, [ev_show argv; ev_render h argv;
               StdoutWrite (text_encode h final)])) \/
  (exists final, dry_run argv = false /\ produced h argv final /\
     code (created h argv final) <> 0%Z /\
     run h argv =
     (Exit 1, [ev_show argv; ev_render h argv; ev_add argv final;
               ConsoleError (JBytes (stderr (created h argv final)))])) \/
  (exists final, dry_run argv = false /\ produced h argv final /\
     code (created h argv final) = 0%Z /\
     run h argv =
     (Value tt, [ev_show argv; ev_render h argv; ev_add argv final;
                 ConsoleLog (JString (lit "Note created."))])).
Proof.
  destruct (run_endings h argv)
    as [Hf | [(Hc & e & Hr) | [(Hd & final & Hp) |
       [(Hd & final & Hp & Hn) | (Hd & final & Hp & Hn)]]]].
  - left. split; [exact Hf | now apply run_fetch_failed].
  - right; left. exists e. repeat (split; [assumption |]).
    now apply run_render_failed.
  - do 2 right; left. exists final. repeat (split; [assumption |]).
    now apply run_dry_run.
  - do 3 right; left. exists final. repeat (split; [assumption |]).
    now apply run_create_failed.
  - do 4 right. exists final. repeat (split; [assumption |]).
    now apply run_note_created.
Qed.

End Never.

(** Split a membership in a trace that is given in full. *)
Ltac in_trace H :=
  repeat (apply elem_of_cons in H as [H | H]; [try discriminate |]);
  try (now apply elem_of_nil in H).

Ltac by_shape h argv :=
  destruct (run_shapes h argv)
    as [(Hf & Hrun) | [(e & Hc & Hr & Hrun) | [(final & Hd & Hp & Hrun) |
       [(final & Hd & Hp & Hn & Hrun) | (final & Hd & Hp & Hn & Hrun)]]]];
  rewrite Hrun in *; cbn [fst snd] in *.

(** X6. The only program the handler runs is [nb], and only in two ways:
    [show --no-color --print] with the template of the command line, or
    [add --filename --content] with the note name of the command line and
    the final text, that is, the text that was fetched, rendered and
    rewritten; the latter only without the dry-run flag. *)
Theorem only_nb_show_and_add (h : Host) (argv : ParsedArgs)
        (program : jsstring) (args : list jsstring) :
  Command program args ∈ (run h argv).2 ->
  program = lit "nb" /\
  (args = show_args (template argv) \/
   (dry_run argv = false /\
    exists final, produced h argv final /\ args = add_args (note argv) final)).
Proof.
  intros H. unfold ev_show, ev_render, ev_add in *.
  by_shape h argv; in_trace H; injection H as -> ->;
    (split; [reflexivity |]); try (left; reflexivity);
    right; (split; [exact Hd |]); exists final; (split; [exact Hp | reflexivity]).
Qed.

Lemma only_nb_show_and_add_witness :
  let h := Demo.host (Demo.ok (lit "# Old" ++ Demo.nl ++ lit "Hello <%= name %>"))
                     (Demo.ok []) in
  let argv := Demo.args (Some (lit "New")) true false in
  let content := lit "# New" ++ Demo.nl ++ lit "Hello Ann" in
  Command (lit "nb") (add_args (lit "new.md") content) ∈ (run h argv).2 /\
  (add_args (lit "new.md") content = show_args (template argv) \/
   (dry_run argv = false /\
    exists final, produced h argv final /\
                  add_args (lit "new.md") content = add_args (note argv) final)).
Proof.
  intros h argv content.
  assert (Hin : Command (lit "nb") (add_args (lit "new.md") content)
                ∈ (run h argv).2).
  { apply list_elem_of_In. right. right. left. reflexivity. }
  split; [exact Hin |].
  exact (proj2 (only_nb_show_and_add h argv _ _ Hin)).
Defined.

(** X7. The handler writes to standard output only in a dry run: a write
    is in the run only if the dry-run flag is set, the bytes written are the
    encoding of the final text, and the run ends with [Deno.exit(0)]. *)
Theorem stdout_only_in_dry_run (h : Host) (argv : ParsedArgs) (bs : list byte) :
  StdoutWrite bs ∈ (run h argv).2 ->
  dry_run argv = true /\
  (run h argv).1 = Exit 0 /\
  exists final, produced h argv final /\ bs = text_encode h final.
Proof.
  intros H. unfold ev_show, ev_render, ev_add in *.
  by_shape h argv; in_trace H. injection H as ->.
  split; [exact Hd |]. split; [reflexivity |].
  exists final. split; [exact Hp | reflexivity].
Qed.

Lemma stdout_only_in_dry_run_witness :
  let h := Demo.host (Demo.ok (lit "# Old" ++ Demo.nl ++ lit "Hello <%= name %>"))
                     (Demo.ok []) in
  let argv := Demo.args None true true in
  let bs := Demo.encode (Demo.nl ++ lit "Hello Ann") in
  StdoutWrite bs ∈ (run h argv).2 /\
  dry_run argv = true /\
  (run h argv).1 = Exit 0 /\
  exists final, produced h argv final /\ bs = text_encode h final.
Proof.
  intros h argv bs.
  assert (Hin : StdoutWrite bs ∈ (run h argv).2).
  { apply list_elem_of_In. right. right. left. reflexivity. }
  split; [exact Hin |].
  exact (stdout_only_in_dry_run h argv bs Hin).
Defined.

(** X8. The handler calls [console.error] only when [nb] failed: the value
    is then the captured error stream of the command that returned a status
    other than 0, [nb show] or [nb add], as a byte array, and the process
    ends with status 1. *)
Theorem console_error_only_on_failure (h : Host) (argv : ParsedArgs)
        (v : js_value) :
  ConsoleError v ∈ (run h argv).2 ->
  (run h argv).1 = Exit 1 /\
  ((fetch_failed h argv /\ v = JBytes (stderr (fetched h argv))) \/
   (exists final,
       dry_run argv = false /\ produced h argv final /\
       code (created h argv final) <> 0%Z /\
       v = JBytes (stderr (created h argv final)))).
Proof.
  intros H. unfold ev_show, ev_render, ev_add in *.
  by_shape h argv; in_trace H; injection H as ->; (split; [reflexivity |]).
  - left. split; [exact Hf | reflexivity].
  - right. exists final. repeat (split; [assumption |]). reflexivity.
Qed.

Lemma console_error_only_on_failure_witness :
  let h := Demo.host (Demo.ok (lit "Hello")) (Demo.failed (lit "exists")) in
  let argv := Demo.args None true false in
  let v := JBytes (Demo.encode (lit "exists")) in
  ConsoleError v ∈ (run h argv).2 /\ (run h argv).1 = Exit 1.
Proof.
  intros h argv v.
  assert (Hin : ConsoleError v ∈ (run h argv).2).
  { apply list_elem_of_In. right. right. right. left. reflexivity. }
  split; [exact Hin |].
  exact (proj1 (console_error_only_on_failure h argv v Hin)).
Defined.

(** X9. When [nb show] returns a status other than 0, the run is [nb show]
    and one call of [console.error] with the captured error stream, and the
    process ends with status 1: the renderer is not called, nothing is
    written to standard output and [nb add] is not run. *)
Theorem fetch_failure_stops_run (h : Host) (argv : ParsedArgs) :
  fetch_failed h argv ->
  run h argv =
    (Exit 1, [ev_show argv; ConsoleError (JBytes (stderr (fetched h argv)))]) /\
  Forall (fun e => is_render e = false /\ is_add e = false /\
                   is_stdout_write e = false) (run h argv).2.
Proof.
  intros Hf. rewrite (run_fetch_failed h argv Hf). split; [reflexivity |].
  repeat constructor.
Qed.

Lemma fetch_failure_stops_run_witness :
  let h := Demo.host (Demo.failed (lit "Not found")) (Demo.ok []) in
  let argv := Demo.args None true false in
  run h argv =
    (Exit 1, [ev_show argv; ConsoleError (JBytes (stderr (fetched h argv)))]) /\
  Forall (fun e => is_render e = false /\ is_add e = false /\
                   is_stdout_write e = false) (run h argv).2.
Proof.
  intros h argv. apply (fetch_failure_stops_run h argv).
  vm_compute. discriminate.
Defined.

(** X10. Whatever makes the renderer throw, the handler does not catch it:
    the run is [nb show] and the call of the renderer, the handler throws
    the error of the renderer, nothing is written to standard output,
    [nb add] is not run and the process ends with status 1. *)
Theorem render_error_stops_run (h : Host) (argv : ParsedArgs) (e : jsstring) :
  code (fetched h argv) = 0%Z ->
  rendering h argv = inl e ->
  run h argv = (Throw e, [ev_show argv; ev_render h argv]) /\
  exit_code (run h argv).1 = 1%Z /\
  Forall (fun ev => is_add ev = false /\ is_stdout_write ev = false)
         (run h argv).2.
Proof.
  intros Hc Hr. rewrite (run_render_failed h argv e Hc Hr).
  split; [reflexivity |]. split; [reflexivity |]. repeat constructor.
Qed.

Lemma render_error_stops_run_witness :
  let h := Demo.host (Demo.ok (lit "Hello <%= name")) (Demo.ok []) in
  let argv := Demo.args None true false in
  run h argv = (Throw (lit "Bad template syntax"),
                [ev_show argv; ev_render h argv]) /\
  exit_code (run h argv).1 = 1%Z /\
  Forall (fun ev => is_add ev = false /\ is_stdout_write ev = false)
         (run h argv).2.
Proof.
  intros h argv.
  apply (render_error_stops_run h argv (lit "Bad template syntax"));
    vm_compute; reflexivity.
Defined.



